(** * Verification of [scripts/generate_pen_icons.py]

    The script draws a stylised pen on a square canvas and saves it as a PNG,
    once for each of two sizes.  This development embeds the script in Rocq:

    - Python [float] values are IEEE binary64 numbers, modelled by the kernel's
      primitive floats ([PrimFloat]) and, for reasoning, by their [spec_float]
      specification;
    - the arithmetic of [create_icon] is written once, over an interface
      [Arith], and read twice: over binary64 (what the script computes) and
      over the real numbers (the geometry the binary64 values approximate);
    - the calls into the imaging library, the file system and [print] are
      recorded as a trace of operations, threaded by a small
      state-and-exception monad. *)

From Stdlib Require Import ZArith QArith Qabs Qreals Reals Lra Lia List String Bool.
From Stdlib Require Import Floats DecimalString DecimalPos DecimalZ.
Import ListNotations.

Set Warnings "-inexact-float".

(** ** The Python values the script computes with *)

Module Py.

(** The exceptions the arithmetic of the script can raise. *)
Inductive exn : Type :=
| OverflowError       (* int too large to convert to float; int(inf) *)
| ZeroDivisionError   (* float division by zero *)
| ValueError.         (* int(nan) *)

(** [int -> float], as performed on the [int] operand of [size * 0.28]:
    the nearest binary64 number, ties to even.  The value is [infinity]
    exactly when CPython raises [OverflowError]. *)
Definition float_of_int (z : Z) : float :=
  SF2Prim (binary_normalize prec emax z 0 false).

Definition int_fits_float (z : Z) : bool :=
  match binary_normalize prec emax z 0 false with
  | S754_infinity _ => false
  | _ => true
  end.

(** A decimal literal of the source text, such as [0.28]: the binary64
    number nearest to the written fraction.  Both the numerator and the
    denominator are exactly representable, so one correctly rounded
    division gives it. *)
Definition float_literal (q : Q) : float :=
  (float_of_int (Qnum q) / float_of_int (Zpos (Qden q)))%float.

(** [int(x)] on a float: truncation towards zero; [int(nan)] raises
    [ValueError] and [int(inf)] raises [OverflowError]. *)
Definition int_of_float (x : float) : exn + Z :=
  match Prim2SF x with
  | S754_zero _ => inr 0%Z
  | S754_finite s m e =>
      let a := match e with
               | Zneg k => Z.shiftr (Zpos m) (Zpos k)
               | _ => Z.shiftl (Zpos m) e
               end in
      inr (if s then Z.opp a else a)
  | S754_infinity _ => inl OverflowError
  | S754_nan => inl ValueError
  end.

(** The rational number a finite float denotes ([0] for those that denote
    none); used to state exact facts about computed coordinates. *)
Definition exact (x : float) : Q :=
  match Prim2SF x with
  | S754_finite s m e =>
      let a := match e with
               | Zneg k => Zpos m # Z.to_pos (2 ^ Zpos k)
               | _ => inject_Z (Z.shiftl (Zpos m) e)
               end in
      if s then Qopp a else a
  | _ => 0%Q
  end.

(** [str(n)] for an [int], as interpolated by an f-string. *)
Definition str (n : Z) : string := NilZero.string_of_int (Z.to_int n).

End Py.

(** ** The arithmetic interface

    The operations [create_icon] applies to numbers.  [of_int] is the implicit
    conversion of an [int] operand and [lit] a decimal literal of the source
    text; [hypot] is [math.hypot], which belongs to the C library and not to
    the script. *)

Class Arith (T : Type) : Type := {
  of_int : Z -> T;
  lit : Q -> T;
  add : T -> T -> T;
  sub : T -> T -> T;
  mul : T -> T -> T;
  div : T -> T -> T;
  neg : T -> T;
  hypot : T -> T -> T
}.

Arguments lit {T _} q%_Q.

Declare Scope arith_scope.
Delimit Scope arith_scope with ar.
Infix "+" := add : arith_scope.
Infix "-" := sub : arith_scope.
Infix "*" := mul : arith_scope.
Infix "/" := div : arith_scope.
Notation "- x" := (neg x) : arith_scope.

(** Binary64, with [math.hypot] a parameter. *)
Definition Float64 (math_hypot : float -> float -> float) : Arith float := {|
  of_int := Py.float_of_int;
  lit := Py.float_literal;
  add := PrimFloat.add;
  sub := PrimFloat.sub;
  mul := PrimFloat.mul;
  div := PrimFloat.div;
  neg := PrimFloat.opp;
  hypot := math_hypot
|}.

(** The real numbers: exact arithmetic, [hypot] the Euclidean norm. *)
Definition Real : Arith R := {|
  of_int := IZR;
  lit := Q2R;
  add := Rplus;
  sub := Rminus;
  mul := Rmult;
  div := Rdiv;
  neg := Ropp;
  hypot := fun x y => R_sqrt.sqrt (x * x + y * y)%R
|}.

(** A reference [math.hypot]: the correctly rounded Euclidean norm of two
    binary64 numbers (exact sum of squares, one rounded square root), with the
    special values of C's [hypot].  It is used to evaluate the script on
    concrete sizes. *)
Definition hypot_cr (x y : float) : float :=
  match Prim2SF x, Prim2SF y with
  | S754_infinity _, _ | _, S754_infinity _ => infinity
  | S754_nan, _ | _, S754_nan => nan
  | S754_zero _, _ => PrimFloat.abs y
  | _, S754_zero _ => PrimFloat.abs x
  | S754_finite _ mx ex, S754_finite _ my ey =>
      let e := Z.min ex ey in
      let a := Z.shiftl (Zpos mx) (ex - e) in
      let b := Z.shiftl (Zpos my) (ey - e) in
      match (a * a + b * b)%Z with
      | Zpos p => SF2Prim (SFsqrt prec emax (S754_finite false p (2 * e)))
      | _ => nan
      end
  end.

(** ** The script *)

Module PenIcon.

Local Open Scope string_scope.

Definition color := string.

Definition BACKGROUND : color := "#020617".
Definition PEN_BODY : color := "#38bdf8".
Definition PEN_SHADOW : color := "#0ea5e9".
Definition PEN_CLIP : color := "#bae6fd".
Definition PEN_NIB : color := "#f8fafc".
Definition PEN_NIB_LINE : color := "#94a3b8".

(** Paths are kept relative to [ROOT], the directory above [scripts/]. *)
Definition path := list string.
Definition ICON_DIR : path := ["public"; "icons"].

Definition relative_to_ROOT (p : path) : string := String.concat "/" p.

(** *** Geometry: the local variables of [create_icon], as functions of
    [size] *)

Section Geometry.
Context {T : Type} {A : Arith T}.
Local Open Scope arith_scope.

Definition Point : Type := T * T.

Definition _offset_point (point vector : Point) : Point :=
  (fst point + fst vector, snd point + snd vector).

Variable size : Z.

Definition start : Point := (of_int size * lit 0.28, of_int size * lit 0.18).
Definition end_ : Point := (of_int size * lit 0.78, of_int size * lit 0.78).
Definition width : T := of_int size * lit 0.16.

Definition dx : T := fst end_ - fst start.
Definition dy : T := snd end_ - snd start.
Definition length : T := hypot dx dy.
Definition ux : T := dx / length.
Definition uy : T := dy / length.
Definition px : T := - uy.
Definition py : T := ux.
Definition half : T := width / of_int 2.

Definition perp : Point := (px * half, py * half).

Definition body : list Point :=
  [ _offset_point start perp;
    _offset_point end_ perp;
    _offset_point end_ (- fst perp, - snd perp);
    _offset_point start (- fst perp, - snd perp) ].

Definition shadow : list Point :=
  [ _offset_point start (fst perp * lit 0.4, snd perp * lit 0.4);
    _offset_point end_ (fst perp * lit 0.4, snd perp * lit 0.4);
    _offset_point end_ (- fst perp * lit 0.6, - snd perp * lit 0.6);
    _offset_point start (- fst perp * lit 0.6, - snd perp * lit 0.6) ].

Definition nib_length : T := width * lit 0.85.
Definition nib_tip : Point :=
  _offset_point end_ (ux * nib_length, uy * nib_length).
Definition nib : list Point :=
  [ _offset_point end_ perp;
    nib_tip;
    _offset_point end_ (- fst perp, - snd perp) ].

(** The two arguments of the [draw.line] call, which the source writes in
    place: the end points, and the stroke width before [int] is applied. *)
Definition nib_line : list Point :=
  [ nib_tip; _offset_point end_ (of_int 0, of_int 0) ].
Definition nib_line_width : T := width * lit 0.08.

Definition eraser_length : T := width * lit 0.9.
Definition eraser_start : Point :=
  _offset_point start (- ux * eraser_length, - uy * eraser_length).
Definition eraser : list Point :=
  [ _offset_point eraser_start perp;
    _offset_point start perp;
    _offset_point start (- fst perp, - snd perp);
    _offset_point eraser_start (- fst perp, - snd perp) ].

Definition clip_offset : T := half * lit 0.6.
Definition clip : list Point :=
  [ _offset_point start (fst perp * lit 0.5, snd perp * lit 0.5);
    _offset_point start (- fst perp * lit 0.2, - snd perp * lit 0.2);
    _offset_point (_offset_point start (- ux * width, - uy * width))
                  (- fst perp * lit 0.2, - snd perp * lit 0.2);
    _offset_point (_offset_point start (- ux * width, - uy * width))
                  (fst perp * lit 0.5, snd perp * lit 0.5) ].

End Geometry.

(** *** Effects

    What the script does to the outside world, in program order: calls into
    the imaging library, the file system and standard output.  Coordinates
    handed to the imaging library are binary64 numbers. *)

Definition fpoint : Type := @Point float.

Inductive op : Type :=
| Path_mkdir (p : path)
| Image_new (mode : string) (size : Z * Z) (color : color)
| ImageDraw_polygon (xy : list fpoint) (fill : color)
| ImageDraw_line (xy : list fpoint) (fill : color) (width : Z)
| Image_save (fp : path) (format : string)
| print (s : string).

(** A computation appends to the trace of operations and either returns a
    value or stops with an exception. *)
Definition M (X : Type) : Type := list op -> (Py.exn + X) * list op.

Definition ret {X} (x : X) : M X := fun tr => (inr x, tr).

Definition bind {X Y} (m : M X) (k : X -> M Y) : M Y :=
  fun tr =>
    match m tr with
    | (inr x, tr') => k x tr'
    | (inl e, tr') => (inl e, tr')
    end.

Definition emit (o : op) : M unit := fun tr => (inr tt, (tr ++ [o])%list).

Definition raise {X} (e : Py.exn) : M X := fun tr => (inl e, tr).

Definition lift {X} (r : Py.exn + X) : M X :=
  match r with
  | inl e => raise e
  | inr x => ret x
  end.

(** [unless_ok b e] raises [e] unless [b] holds. *)
Definition unless_ok (b : bool) (e : Py.exn) : M unit :=
  if b then ret tt else raise e.

Declare Scope py_scope.
Delimit Scope py_scope with py.
Notation "x <- m ;; k" := (bind m (fun x => k))
  (at level 61, m at next level, right associativity) : py_scope.
Notation "m ;; k" := (bind m (fun _ => k))
  (at level 61, right associativity) : py_scope.

Fixpoint for_each {X} (xs : list X) (f : X -> M unit) : M unit :=
  match xs with
  | [] => ret tt
  | x :: xs' => (f x ;; for_each xs' f)%py
  end.

Section Script.
(** [math.hypot] of the platform. *)
Variable math_hypot : float -> float -> float.

#[local] Instance F64 : Arith float := Float64 math_hypot.

(** [create_icon(size)].  The arithmetic is the geometry above, read over
    binary64; the three places where Python arithmetic can raise are
    checked where the source reaches them: the conversion of [size] to
    float in [size * 0.28], the divisions by [length], and [int(...)].
    [ImageDraw.Draw(img)] only wraps the canvas and leaves no operation. *)
Definition create_icon (size : Z) : M unit :=
  (emit (Image_new "RGBA" (size, size) BACKGROUND) ;;
   unless_ok (Py.int_fits_float size) Py.OverflowError ;;
   unless_ok (negb (length size =? 0)%float) Py.ZeroDivisionError ;;
   emit (ImageDraw_polygon (shadow size) PEN_SHADOW) ;;
   emit (ImageDraw_polygon (body size) PEN_BODY) ;;
   emit (ImageDraw_polygon (nib size) PEN_NIB) ;;
   w <- lift (Py.int_of_float (nib_line_width size)) ;;
   emit (ImageDraw_line (nib_line size) PEN_NIB_LINE w) ;;
   emit (ImageDraw_polygon (eraser size) PEN_CLIP) ;;
   emit (ImageDraw_polygon (clip size) PEN_SHADOW) ;;
   let path := (ICON_DIR ++ [("pen-" ++ Py.str size ++ ".png")%string])%list in
   emit (Image_save path "PNG") ;;
   emit (print ("Saved " ++ relative_to_ROOT path)))%py.

Definition main : M unit := for_each [192%Z; 512%Z] create_icon.

(** Running the file as a script: the module body, then [main()]. *)
Definition script : M unit := (emit (Path_mkdir ICON_DIR) ;; main)%py.

End Script.

End PenIcon.

(** ** Vocabulary for binary64 numbers *)

Module B64.

(** The number of bits of a positive integer. *)
Definition digits (p : positive) : Z := Zpos (digits2_pos p).

(** A float that is finite, positive and normal, with mantissa [m] and
    exponent [e]. *)
Definition pos_normal (x : float) (m : positive) (e : Z) : Prop :=
  Prim2SF x = S754_finite false m e /\ (2 ^ 52 <= Zpos m < 2 ^ 53)%Z.

(** A well-formed binary64 number that is positive: finite or infinite. *)
Definition positive_sf (r : spec_float) : Prop :=
  valid_binary r = true /\
  ((exists m e, r = S754_finite false m e) \/ r = S754_infinity false).

End B64.

Import PenIcon.

(** ** Observations

    What the statements below read off a trace or a list of vertices. *)



(** The files written, and the lines printed, in order. *)
Definition saved_files (tr : list op) : list string :=
  flat_map (fun o => match o with
                     | Image_save fp _ => [relative_to_ROOT fp]
                     | _ => []
                     end) tr.

Definition printed (tr : list op) : list string :=
  flat_map (fun o => match o with print s => [s] | _ => [] end) tr.

(** The operations that leave the process: files saved and lines printed. *)
Definition is_output (o : op) : bool :=
  match o with
  | Image_save _ _ | print _ => true
  | _ => false
  end.

Definition outputs (tr : list op) : list op := filter is_output tr.

(** The canvases created: mode and pixel dimensions. *)
Definition canvases (tr : list op) : list (string * (Z * Z)) :=
  flat_map (fun o => match o with
                     | Image_new mode size _ => [(mode, size)]
                     | _ => []
                     end) tr.

(** The operations a computation performs from an empty trace. *)
Definition performed {X} (m : M X) : list op := snd (m []).

(** The exact square of the Euclidean distance between two binary64
    points, as a rational number. *)
Definition dist2 (p q : fpoint) : Q :=
  ((Py.exact (fst p) - Py.exact (fst q)) * (Py.exact (fst p) - Py.exact (fst q))
   + (Py.exact (snd p) - Py.exact (snd q)) * (Py.exact (snd p) - Py.exact (snd q)))%Q.

Definition Qsq (x : Q) : Q := (x * x)%Q.

(** [exactly_apart p q d2]: the squared distance of [p] and [q] is exactly
    [d2]. *)
Definition exactly_apart (p q : fpoint) (d2 : Q) : bool :=
  Qeq_bool (dist2 p q) d2.


(** A rational number whose denominator can be taken a power of two. *)
Definition dyadic (q : Q) : Prop :=
  exists (n k : Z), (0 <= k)%Z /\ (q * inject_Z (2 ^ k) == inject_Z n)%Q.

(** The stroke widths of the lines drawn. *)
Definition line_widths (tr : list op) : list Z :=
  flat_map (fun o => match o with
                     | ImageDraw_line _ _ w => [w]
                     | _ => []
                     end) tr.

(** The [i]-th vertex of a polygon with binary64 coordinates. *)
Definition vertex (xy : list fpoint) (i : nat) : fpoint :=
  nth i xy (0%float, 0%float).


(** The operations of one complete call of [create_icon], in program
    order, given [math.hypot] and the integer stroke width [w] of the centre
    line. *)
Definition icon_trace (h : float -> float -> float) (size w : Z) : list op :=
  [ Image_new "RGBA" (size, size) BACKGROUND;
    ImageDraw_polygon (shadow (A := F64 h) size) PEN_SHADOW;
    ImageDraw_polygon (body (A := F64 h) size) PEN_BODY;
    ImageDraw_polygon (nib (A := F64 h) size) PEN_NIB;
    ImageDraw_line (nib_line (A := F64 h) size) PEN_NIB_LINE w;
    ImageDraw_polygon (eraser (A := F64 h) size) PEN_CLIP;
    ImageDraw_polygon (clip (A := F64 h) size) PEN_SHADOW;
    Image_save (ICON_DIR ++ [("pen-" ++ Py.str size ++ ".png")%string]) "PNG";
    print ("Saved " ++ relative_to_ROOT
             (ICON_DIR ++ [("pen-" ++ Py.str size ++ ".png")%string])) ].

(** What the script needs of [math.hypot]: a positive result on positive
    arguments. *)
Definition hypot_positive (h : float -> float -> float) : Prop :=
  forall x y : float,
    (0 <? x)%float = true -> (0 <? y)%float = true -> (0 <? h x y)%float = true.


(** The directories created, and the paths saved to, in order. *)
Definition dirs_created (tr : list op) : list path :=
  flat_map (fun o => match o with Path_mkdir p => [p] | _ => [] end) tr.

Definition saved_paths (tr : list op) : list path :=
  flat_map (fun o => match o with Image_save fp _ => [fp] | _ => [] end) tr.

(** The points handed to the drawing calls. *)
Definition points_of (o : op) : list fpoint :=
  match o with
  | ImageDraw_polygon xy _ | ImageDraw_line xy _ _ => xy
  | _ => []
  end.

Definition drawn_points (tr : list op) : list fpoint := flat_map points_of tr.

(** [within c p]: both coordinates of [p] are between [0] and [c], compared
    as binary64 numbers; [in_canvas size p]: the point [p] is in the canvas
    of side [size]. *)
Definition within (c : float) (p : fpoint) : bool :=
  ((0 <=? fst p) && (fst p <=? c) && (0 <=? snd p) && (snd p <=? c))%float.

Definition in_canvas (size : Z) (p : fpoint) : bool :=
  within (Py.float_of_int size) p.

(** The points of a complete run in drawing order (shadow, body, nib,
    centre line, eraser, clip), written over the values they share, so that
    a run can be evaluated with each of them computed once. *)
Section Shared.
Context {T : Type} {A : Arith T}.
Local Open Scope arith_scope.

Definition pen_points (start end_ : @Point T) (ux uy width : T) : list (@Point T) :=
  let half := width / of_int 2 in
  let perp := ((- uy) * half, ux * half) in
  let nperp := (- fst perp, - snd perp) in
  let nib_tip :=
    _offset_point end_ (ux * (width * lit 0.85), uy * (width * lit 0.85)) in
  let eraser_start :=
    _offset_point start (- ux * (width * lit 0.9), - uy * (width * lit 0.9)) in
  let back := _offset_point start (- ux * width, - uy * width) in
  ([ _offset_point start (fst perp * lit 0.4, snd perp * lit 0.4);
     _offset_point end_ (fst perp * lit 0.4, snd perp * lit 0.4);
     _offset_point end_ (- fst perp * lit 0.6, - snd perp * lit 0.6);
     _offset_point start (- fst perp * lit 0.6, - snd perp * lit 0.6) ]
   ++ [ _offset_point start perp; _offset_point end_ perp;
        _offset_point end_ nperp; _offset_point start nperp ]
   ++ [ _offset_point end_ perp; nib_tip; _offset_point end_ nperp ]
   ++ [ nib_tip; _offset_point end_ (of_int 0, of_int 0) ]
   ++ [ _offset_point eraser_start perp; _offset_point start perp;
        _offset_point start nperp; _offset_point eraser_start nperp ]
   ++ [ _offset_point start (fst perp * lit 0.5, snd perp * lit 0.5);
        _offset_point start (- fst perp * lit 0.2, - snd perp * lit 0.2);
        _offset_point back (- fst perp * lit 0.2, - snd perp * lit 0.2);
        _offset_point back (fst perp * lit 0.5, snd perp * lit 0.5) ])%list.

End Shared.

(** [pen_in_canvas size]: with the reference [math.hypot], the size converts
    to a float, the axis has a length that is not zero, and every point of
    the run is in the canvas. *)
Definition pen_in_canvas (size : Z) : bool :=
  let s := start (A := F64 hypot_cr) size in
  let e := end_ (A := F64 hypot_cr) size in
  let l := hypot_cr (fst e - fst s) (snd e - snd s) in
  Py.int_fits_float size && negb (l =? 0)%float
  && forallb (within (Py.float_of_int size))
       (pen_points (A := F64 hypot_cr) s e ((fst e - fst s) / l)%float
          ((snd e - snd s) / l)%float (width (A := F64 hypot_cr) size)).

(** [all_from lo n P]: [P] holds of the [n] integers from [lo] on. *)
Fixpoint all_from (lo : Z) (n : nat) (P : Z -> bool) : bool :=
  match n with
  | O => true
  | S k => P lo && all_from (lo + 1) k P
  end.

(** [stroke_width_is size w]: [int(width * 0.08)] is defined at [size] and
    is [w].  The product does not involve [math.hypot]. *)
Definition stroke_width_is (size w : Z) : bool :=
  Py.int_fits_float size
  && match Py.int_of_float (nib_line_width (A := F64 hypot_cr) size) with
     | inr w' => (w' =? w)%Z
     | inl _ => false
     end.

(** ** Binary64 rounding

    Facts about the [spec_float] operations that specify the primitive
    floats, for positive numbers in the normal range: what rounding does to
    the mantissa and the exponent. *)

Module B64Facts.
Import B64.
Local Open Scope Z_scope.

Lemma pow2_pred (d : Z) : 0 < d -> 2 ^ d = 2 * 2 ^ (d - 1).
Proof.
  intros Hd. replace d with (Z.succ (d - 1)) at 1 by lia.
  apply Z.pow_succ_r. lia.
Qed.

Lemma digits_pos (p : positive) : 0 < digits p.
Proof. unfold digits. lia. Qed.

Lemma digits_bounds (p : positive) :
  2 ^ (digits p - 1) <= Zpos p < 2 ^ digits p.
Proof.
  induction p as [p IH | p IH |].
  - assert (E : digits p~1 = Z.succ (digits p))
      by (unfold digits; cbn [digits2_pos]; lia).
    rewrite E, Z.pow_succ_r by (pose proof (digits_pos p); lia).
    replace (Z.succ (digits p) - 1) with (digits p) by lia.
    rewrite (pow2_pred (digits p)) in * by apply digits_pos. lia.
  - assert (E : digits p~0 = Z.succ (digits p))
      by (unfold digits; cbn [digits2_pos]; lia).
    rewrite E, Z.pow_succ_r by (pose proof (digits_pos p); lia).
    replace (Z.succ (digits p) - 1) with (digits p) by lia.
    rewrite (pow2_pred (digits p)) in * by apply digits_pos. lia.
  - cbn. lia.
Qed.

Lemma digits_unique (p : positive) (k : Z) :
  2 ^ (k - 1) <= Zpos p < 2 ^ k -> digits p = k.
Proof.
  intros [Hlo Hhi]. pose proof (digits_bounds p) as [Dlo Dhi].
  assert (0 < digits p) by (unfold digits; lia).
  assert (0 < k).
  { destruct (Z_lt_le_dec 0 k) as [|Hk]; [assumption|].
    destruct (Z.eq_dec k 0) as [->|]; [cbn in Hhi; lia|].
    rewrite (Z.pow_neg_r 2 k) in Hhi by lia. lia. }
  destruct (Z_lt_le_dec (digits p) k) as [Hlt|Hge].
  - assert (2 ^ digits p <= 2 ^ (k - 1)) by (apply Z.pow_le_mono_r; lia). lia.
  - destruct (Z_lt_le_dec k (digits p)) as [Hlt|Hle]; [|lia].
    assert (2 ^ k <= 2 ^ (digits p - 1)) by (apply Z.pow_le_mono_r; lia). lia.
Qed.

Lemma shr_1_m (mrs : shr_record) :
  0 <= shr_m mrs -> shr_m (shr_1 mrs) = shr_m mrs / 2.
Proof.
  destruct mrs as [m r s]. cbn [shr_m]. intros Hm.
  rewrite <- Z.div2_div.
  destruct m as [|[p|p|]|p]; try reflexivity. lia.
Qed.

Lemma iter_shr_1_m (n : positive) :
  forall mrs, 0 <= shr_m mrs ->
    shr_m (iter_pos shr_1 n mrs) = shr_m mrs / 2 ^ Zpos n.
Proof.
  assert (step : forall mrs, 0 <= shr_m mrs -> 0 <= shr_m mrs / 2)
    by (intros; apply Z.div_pos; lia).
  induction n as [n IH | n IH |]; intros mrs Hm; cbn [iter_pos].
  - assert (H1 : 0 <= shr_m (shr_1 mrs)) by (rewrite shr_1_m; auto).
    assert (H2 : 0 <= shr_m (iter_pos shr_1 n (shr_1 mrs))).
    { rewrite IH by assumption. apply Z.div_pos; [assumption|]. apply Z.pow_pos_nonneg; lia. }
    rewrite IH, IH, shr_1_m by assumption.
    rewrite !Z.div_div by (try apply Z.pow_pos_nonneg; lia).
    f_equal. replace (Zpos n~1) with (1 + Zpos n + Zpos n) by lia.
    rewrite (Z.pow_add_r 2 (1 + Zpos n)), (Z.pow_add_r 2 1) by lia.
    change (2 ^ 1) with 2. ring.
  - assert (H2 : 0 <= shr_m (iter_pos shr_1 n mrs)).
    { rewrite IH by assumption. apply Z.div_pos; [assumption|]. apply Z.pow_pos_nonneg; lia. }
    rewrite IH, IH by assumption.
    rewrite !Z.div_div by (try apply Z.pow_pos_nonneg; lia).
    f_equal. replace (Zpos n~0) with (Zpos n + Zpos n) by lia.
    rewrite (Z.pow_add_r 2 (Zpos n)) by lia. ring.
  - rewrite shr_1_m by assumption. reflexivity.
Qed.

Lemma shr_m_shift (m : Z) (l : location) (e n : Z) :
  0 <= m -> 0 <= n ->
  shr_m (fst (shr (shr_record_of_loc m l) e n)) = m / 2 ^ n
  /\ snd (shr (shr_record_of_loc m l) e n) = e + n.
Proof.
  intros Hm Hn.
  assert (Hr : shr_m (shr_record_of_loc m l) = m) by (destruct l as [|[]]; reflexivity).
  destruct n as [|n|n]; cbn [shr fst snd]; [| |lia].
  - rewrite Hr, Z.div_1_r. lia.
  - rewrite iter_shr_1_m, Hr by (rewrite Hr; assumption). auto.
Qed.

Lemma round_nearest_even_cases (m : Z) (l : location) :
  round_nearest_even m l = m \/ round_nearest_even m l = m + 1.
Proof.
  destruct l as [|[]]; cbn; auto. destruct (Z.even m); auto.
Qed.

Lemma fexp_normal (x : Z) : -1074 <= x - 53 -> fexp prec emax x = x - 53.
Proof.
  intros H. unfold fexp. change (SpecFloat.emin prec emax) with (-1074).
  change prec with 53. lia.
Qed.

(** Rounding a positive integer [p] of at least 53 bits, scaled by [2^ex],
    in the normal range: the result has a full 53-bit mantissa [m'], its
    exponent is [ex + k] where [k] bits were dropped, and it is within one
    unit in the last place of the exact value. *)
Lemma round_aux_normal (p : positive) (ex : Z) (l : location) :
  53 <= digits p -> -1074 <= digits p + ex - 53 ->
  exists (m' : positive) (k : Z),
    binary_round_aux prec emax false (Zpos p) ex l =
      (if ex + k <=? 971 then S754_finite false m' (ex + k)
       else S754_infinity false)
    /\ 2 ^ 52 <= Zpos m' < 2 ^ 53
    /\ (k = digits p - 53 \/ k = digits p - 52)
    /\ Zpos p - 2 ^ k < Zpos m' * 2 ^ k <= Zpos p + 2 ^ k.
Proof.
  intros Hd He.
  set (n := digits p - 53).
  pose proof (digits_bounds p) as [Dlo Dhi].
  assert (Hn : 0 <= n) by (unfold n; lia).
  assert (P2 : 0 < 2 ^ n) by (apply Z.pow_pos_nonneg; lia).
  assert (E52 : 2 ^ (digits p - 1) = 2 ^ 52 * 2 ^ n).
  { rewrite <- Z.pow_add_r by lia. f_equal. unfold n. lia. }
  assert (E53 : 2 ^ digits p = 2 ^ 53 * 2 ^ n).
  { rewrite <- Z.pow_add_r by lia. f_equal. unfold n. lia. }
  set (q := Zpos p / 2 ^ n).
  assert (Q1 : q * 2 ^ n <= Zpos p) by (unfold q; rewrite Z.mul_comm; apply Z.mul_div_le; lia).
  assert (Q2 : Zpos p < (q + 1) * 2 ^ n).
  { unfold q. rewrite Z.mul_comm. apply (Z.mul_succ_div_gt (Zpos p) (2 ^ n)). lia. }
  assert (Q3 : 2 ^ 52 <= q) by (apply Z.div_le_lower_bound; lia).
  assert (Q4 : q < 2 ^ 53) by (apply Z.div_lt_upper_bound; lia).
  unfold binary_round_aux, shr_fexp.
  cbn [Zdigits2]. fold (digits p).
  rewrite fexp_normal by lia.
  replace (digits p + ex - 53 - ex) with n by (unfold n; lia).
  destruct (shr_m_shift (Zpos p) l ex n) as [S1 S2]; [lia | lia |].
  destruct (shr (shr_record_of_loc (Zpos p) l) ex n) as [mrs' e'].
  cbn [fst snd] in S1, S2. fold q in S1. subst e'.
  rewrite S1.
  destruct (round_nearest_even_cases q (loc_of_shr_record mrs')) as [R | R];
    rewrite R; clear R.
  - (* rounded down *)
    destruct q as [|r|r] eqn:Eq; try lia.
    cbn [Zdigits2]. fold (digits r).
    rewrite (digits_unique r 53) by (change (53 - 1) with 52; lia).
    rewrite fexp_normal by lia.
    replace (53 + (ex + n) - 53 - (ex + n)) with 0 by lia.
    cbn [shr shr_record_of_loc shr_m].
    exists r, n. repeat split; lia.
  - (* rounded up *)
    destruct (q + 1) as [|r|r] eqn:Eq; try lia.
    destruct (Z.eq_dec (Zpos r) (2 ^ 53)) as [Top | NotTop].
    + cbn [Zdigits2]. fold (digits r).
      rewrite (digits_unique r 54) by (change (54 - 1) with 53; rewrite Top; cbn; lia).
      rewrite fexp_normal by lia.
      replace (54 + (ex + n) - 53 - (ex + n)) with 1 by lia.
      destruct (shr_m_shift (Zpos r) loc_Exact (ex + n) 1) as [T1 T2]; [lia | lia |].
      destruct (shr (shr_record_of_loc (Zpos r) loc_Exact) (ex + n) 1) as [mrs2 e2].
      cbn [fst snd] in T1, T2. subst e2. rewrite T1, Top.
      change (2 ^ 53 / 2 ^ 1) with (Zpos (Pos.shiftl 1 52)).
      exists (Pos.shiftl 1 52), (n + 1).
      replace (ex + (n + 1)) with (ex + n + 1) by lia.
      repeat split; try (cbn; lia).
      * unfold n; right; lia.
      * rewrite Z.pow_add_r by lia. change (Zpos (Pos.shiftl 1 52)) with (2 ^ 52).
        change (2 ^ 1) with 2. rewrite Top in Eq. lia.
      * rewrite Z.pow_add_r by lia. change (Zpos (Pos.shiftl 1 52)) with (2 ^ 52).
        change (2 ^ 1) with 2. rewrite Top in Eq. lia.
    + cbn [Zdigits2]. fold (digits r).
      rewrite (digits_unique r 53) by (change (53 - 1) with 52; lia).
      rewrite fexp_normal by lia.
      replace (53 + (ex + n) - 53 - (ex + n)) with 0 by lia.
      cbn [shr shr_record_of_loc shr_m].
      exists r, n. repeat split; lia.
Qed.

(** No bit is dropped when the exponent is already the canonical one. *)
Lemma round_aux_exact (p : positive) (e : Z) :
  fexp prec emax (digits p + e) = e ->
  binary_round_aux prec emax false (Zpos p) e loc_Exact =
    (if e <=? 971 then S754_finite false p e else S754_infinity false).
Proof.
  intros H. unfold binary_round_aux, shr_fexp.
  cbn [Zdigits2]. fold (digits p). rewrite H, Z.sub_diag.
  cbn [shr shr_record_of_loc shr_m loc_of_shr_record round_nearest_even].
  cbn [Zdigits2]. fold (digits p). rewrite H, Z.sub_diag.
  reflexivity.
Qed.

Lemma iter_xO_value (p k : positive) :
  Zpos (Pos.iter xO p k) = Zpos p * 2 ^ Zpos k.
Proof.
  induction k as [|k IH] using Pos.peano_ind.
  - cbn [Pos.iter]. lia.
  - rewrite Pos.iter_succ, Pos2Z.inj_succ, Z.pow_succ_r, Pos2Z.inj_xO, IH by lia. ring.
Qed.

Lemma iter_xO_digits (p k : positive) :
  digits (Pos.iter xO p k) = digits p + Zpos k.
Proof.
  induction k as [|k IH] using Pos.peano_ind.
  - unfold digits. cbn [Pos.iter digits2_pos]. lia.
  - rewrite Pos.iter_succ. unfold digits in *. cbn [digits2_pos]. lia.
Qed.

Lemma shl_align_fst (m : positive) (e ez : Z) :
  ez <= e -> Zpos (fst (shl_align m e ez)) = Zpos m * 2 ^ (e - ez).
Proof.
  intros H. unfold shl_align.
  destruct (ez - e) as [|d|d] eqn:E; cbn [fst]; try lia.
  - replace (e - ez) with 0 by lia. lia.
  - rewrite iter_xO_value. f_equal. f_equal. lia.
Qed.

(** Rounding a positive integer scaled by [2^ex] whose value lies in the
    normal range. *)
Lemma binary_round_normal (p : positive) (ex : Z) :
  -1074 <= digits p + ex - 53 ->
  exists (m' : positive) (e' : Z),
    binary_round prec emax false p ex =
      (if e' <=? 971 then S754_finite false m' e' else S754_infinity false)
    /\ 2 ^ 52 <= Zpos m' < 2 ^ 53
    /\ digits p + ex - 53 <= e' <= digits p + ex - 52.
Proof.
  intros He. unfold binary_round, shl_align.
  fold (digits p). rewrite fexp_normal by lia.
  destruct (digits p + ex - 53 - ex) as [|d|d] eqn:E.
  - destruct (round_aux_normal p ex loc_Exact) as (m' & k & R & Hm & Hk & _); try lia.
    exists m', (ex + k). rewrite R. repeat split; lia.
  - destruct (round_aux_normal p ex loc_Exact) as (m' & k & R & Hm & Hk & _); try lia.
    exists m', (ex + k). rewrite R. repeat split; lia.
  - assert (D : digits (Pos.iter xO p d) = 53) by (rewrite iter_xO_digits; lia).
    rewrite round_aux_exact by (rewrite D, fexp_normal; lia).
    exists (Pos.iter xO p d), (digits p + ex - 53).
    pose proof (digits_bounds (Pos.iter xO p d)) as B. rewrite D in B.
    change (53 - 1) with 52 in B. repeat split; lia.
Qed.

Lemma float_of_int_pos (z : Z) :
  0 < z -> Py.int_fits_float z = true ->
  exists m e, pos_normal (Py.float_of_int z) m e /\ -52 <= e <= 971.
Proof.
  intros Hz Hfit. destruct z as [|p|p]; try lia.
  unfold Py.int_fits_float, Py.float_of_int in *. cbn [binary_normalize] in *.
  destruct (binary_round_normal p 0) as (m & e & R & Hm & He).
  { pose proof (digits_pos p). lia. }
  pose proof (digits_pos p) as Dp.
  rewrite R in *. destruct (e <=? 971) eqn:Le; [|discriminate].
  apply Z.leb_le in Le.
  exists m, e. split; [split; [|assumption]|lia].
  apply Prim2SF_SF2Prim. unfold valid_binary, bounded, canonical_mantissa.
  fold (digits m). rewrite (digits_unique m 53) by (change (53 - 1) with 52; lia).
  rewrite fexp_normal by lia. apply andb_true_intro. split.
  - apply Z.eqb_eq. lia.
  - apply Z.leb_le. change (emax - prec) with 971. lia.
Qed.

(** The product of two positive normal floats. *)
Lemma mul_pos_normal (x y : float) (mx my : positive) (ex ey : Z) :
  pos_normal x mx ex -> pos_normal y my ey -> -1074 <= ex + ey + 52 ->
  exists (m' : positive) (k : Z),
    Prim2SF (x * y) =
      (if ex + ey + k <=? 971 then S754_finite false m' (ex + ey + k)
       else S754_infinity false)
    /\ 2 ^ 52 <= Zpos m' < 2 ^ 53
    /\ 52 <= k <= 54
    /\ Zpos mx * Zpos my - 2 ^ k < Zpos m' * 2 ^ k <= Zpos mx * Zpos my + 2 ^ k.
Proof.
  intros [Hx Mx] [Hy My] He.
  rewrite mul_spec. unfold SF64mul, SFmul. rewrite Hx, Hy. cbn [xorb].
  pose proof (digits_bounds (mx * my)) as [Dlo Dhi].
  rewrite Pos2Z.inj_mul in Dlo, Dhi.
  assert (Plo : 2 ^ 104 <= Zpos mx * Zpos my).
  { change (2 ^ 104) with (2 ^ 52 * 2 ^ 52). apply Z.mul_le_mono_nonneg; lia. }
  assert (Phi : Zpos mx * Zpos my < 2 ^ 106).
  { change (2 ^ 106) with (2 ^ 53 * 2 ^ 53). apply Z.mul_lt_mono_nonneg; lia. }
  assert (D1 : 104 < digits (mx * my)).
  { apply (Z.pow_lt_mono_r_iff 2); [lia | pose proof (digits_pos (mx * my)); lia | lia]. }
  assert (D2 : digits (mx * my) - 1 < 106).
  { apply (Z.pow_lt_mono_r_iff 2); lia. }
  destruct (round_aux_normal (mx * my) (ex + ey) loc_Exact)
    as (m' & k & R & Hm & Hk & Hv); try lia.
  exists m', k. rewrite Pos2Z.inj_mul in Hv. repeat split; try assumption; lia.
Qed.

Lemma ltb_zero_pos (x : float) :
  (exists m e, Prim2SF x = S754_finite false m e) \/ Prim2SF x = S754_infinity false ->
  (0 <? x)%float = true.
Proof.
  intros H. rewrite ltb_spec. change (Prim2SF 0) with (S754_zero false).
  destruct H as [(m & e & ->) | ->]; reflexivity.
Qed.

(** The difference of two positive finite floats, the first being the
    larger, is positive.  The two values are compared on a common
    exponent [e0]. *)
Lemma sub_pos (x y : float) (mx my : positive) (ex ey e0 a b : Z) :
  Prim2SF x = S754_finite false mx ex ->
  Prim2SF y = S754_finite false my ey ->
  -1020 <= e0 -> 0 <= a -> 0 <= b -> ex = e0 + a -> ey = e0 + b ->
  Zpos my * 2 ^ b < Zpos mx * 2 ^ a ->
  (0 <? x - y)%float = true.
Proof.
  intros Hx Hy He0 Ha Hb Ea Eb Hlt. apply ltb_zero_pos.
  rewrite sub_spec. unfold SF64sub, SFsub. rewrite Hx, Hy.
  cbn zeta. cbn [cond_Zopp].
  set (ez := Z.min ex ey).
  rewrite !shl_align_fst by (unfold ez; lia).
  set (c := ez - e0).
  assert (Hc : 0 <= c) by (unfold c, ez; lia).
  assert (Xa : Zpos mx * 2 ^ a = Zpos mx * 2 ^ (ex - ez) * 2 ^ c).
  { rewrite <- Z.mul_assoc, <- Z.pow_add_r by (unfold c, ez; lia).
    f_equal. f_equal. unfold c. lia. }
  assert (Yb : Zpos my * 2 ^ b = Zpos my * 2 ^ (ey - ez) * 2 ^ c).
  { rewrite <- Z.mul_assoc, <- Z.pow_add_r by (unfold c, ez; lia).
    f_equal. f_equal. unfold c. lia. }
  rewrite Xa, Yb in Hlt.
  apply Z.mul_lt_mono_pos_r in Hlt; [|apply Z.pow_pos_nonneg; lia].
  destruct (Zpos mx * 2 ^ (ex - ez) - Zpos my * 2 ^ (ey - ez)) as [|q|q] eqn:Eq; try lia.
  cbn [binary_normalize].
  destruct (binary_round_normal q ez) as (m' & e' & R & _).
  { pose proof (digits_pos q). unfold ez. lia. }
  rewrite R. destruct (e' <=? 971); eauto.
Qed.

Lemma valid_finite (m : positive) (e : Z) :
  2 ^ 52 <= Zpos m < 2 ^ 53 -> -1074 <= e <= 971 ->
  valid_binary (S754_finite false m e) = true.
Proof.
  intros Hm He. unfold valid_binary, bounded, canonical_mantissa.
  fold (digits m). rewrite (digits_unique m 53) by (change (53 - 1) with 52; lia).
  rewrite fexp_normal by lia. apply andb_true_intro. split.
  - apply Z.eqb_eq. lia.
  - apply Z.leb_le. change (emax - prec) with 971. lia.
Qed.

Lemma valid_exponent (x : float) (s : bool) (m : positive) (e : Z) :
  Prim2SF x = S754_finite s m e -> -1074 <= e <= 971.
Proof.
  intros Hx. pose proof (Prim2SF_valid x) as V. rewrite Hx in V.
  unfold valid_binary, bounded, canonical_mantissa in V.
  apply andb_prop in V. destruct V as [C B].
  apply Z.eqb_eq in C. apply Z.leb_le in B. change (emax - prec) with 971 in B.
  unfold fexp in C. change (SpecFloat.emin prec emax) with (-1074) in C. lia.
Qed.

Lemma round_aux_normal_positive (p : positive) (ex : Z) (l : location) :
  53 <= digits p -> -1074 <= ex ->
  positive_sf (binary_round_aux prec emax false (Zpos p) ex l).
Proof.
  intros Hd He.
  destruct (round_aux_normal p ex l) as (m' & k & R & Hm & Hk & _); try lia.
  rewrite R. destruct (ex + k <=? 971) eqn:Le.
  - apply Z.leb_le in Le. split; [apply valid_finite; lia | eauto].
  - split; [reflexivity | auto].
Qed.

Lemma fexp_subnormal (x : Z) : x - 53 <= -1074 -> fexp prec emax x = -1074.
Proof.
  intros H. unfold fexp. change (SpecFloat.emin prec emax) with (-1074).
  change prec with 53. lia.
Qed.

Lemma digits_le (p : positive) (k : Z) : Zpos p < 2 ^ k -> digits p <= k.
Proof.
  intros H. pose proof (digits_bounds p) as [Dlo _]. pose proof (digits_pos p).
  destruct (Z_lt_le_dec k (digits p)) as [Hlt|]; [|assumption].
  assert (0 <= k).
  { destruct (Z_lt_le_dec k 0); [|assumption]. rewrite Z.pow_neg_r in H; lia. }
  assert (2 ^ k <= 2 ^ (digits p - 1)) by (apply Z.pow_le_mono_r; lia). lia.
Qed.

Lemma digits_ge (p : positive) (k : Z) : 2 ^ k <= Zpos p -> k < digits p.
Proof.
  intros H. pose proof (digits_bounds p) as [_ Dhi]. pose proof (digits_pos p).
  destruct (Z_lt_le_dec k 0); [lia|].
  apply (Z.pow_lt_mono_r_iff 2); lia.
Qed.

(** Rounding at the smallest exponent: nothing is shifted out. *)
Lemma round_aux_subnormal_positive (p : positive) (l : location) :
  digits p <= 53 ->
  positive_sf (binary_round_aux prec emax false (Zpos p) (-1074) l).
Proof.
  intros Hd. pose proof (digits_pos p) as Dp.
  pose proof (digits_bounds p) as [Dlo Dhi].
  assert (Hp : Zpos p < 2 ^ 53).
  { assert (2 ^ digits p <= 2 ^ 53) by (apply Z.pow_le_mono_r; lia). lia. }
  unfold binary_round_aux, shr_fexp.
  cbn [Zdigits2]. fold (digits p).
  rewrite fexp_subnormal by lia. change (-1074 - -1074) with 0.
  cbn [shr].
  assert (Hr : shr_m (shr_record_of_loc (Zpos p) l) = Zpos p) by (destruct l as [|[]]; reflexivity).
  rewrite Hr.
  destruct (round_nearest_even_cases (Zpos p) (loc_of_shr_record (shr_record_of_loc (Zpos p) l))) as [R | R];
    rewrite R; clear R.
  - cbn [Zdigits2]. fold (digits p).
    rewrite fexp_subnormal by lia. change (-1074 - -1074) with 0.
    cbn [shr shr_record_of_loc shr_m].
    change (-1074 <=? emax - prec) with true. cbv iota.
    split; [|eauto].
    unfold valid_binary, bounded, canonical_mantissa. fold (digits p).
    rewrite fexp_subnormal by lia. reflexivity.
  - destruct (Zpos p + 1) as [|r|r] eqn:Er; try lia.
    destruct (Z.eq_dec (Zpos r) (2 ^ 53)) as [Top | NotTop].
    + cbn [Zdigits2]. fold (digits r).
      rewrite (digits_unique r 54) by (change (54 - 1) with 53; rewrite Top; cbn; lia).
      rewrite fexp_normal by lia.
      change (54 + -1074 - 53 - -1074) with 1.
      destruct (shr_m_shift (Zpos r) loc_Exact (-1074) 1) as [T1 T2]; [lia | lia |].
      destruct (shr (shr_record_of_loc (Zpos r) loc_Exact) (-1074) 1) as [mrs2 e2].
      cbn [fst snd] in T1, T2. subst e2. rewrite T1, Top.
      change (2 ^ 53 / 2 ^ 1) with (Zpos (Pos.shiftl 1 52)).
      change (-1074 + 1 <=? emax - prec) with true. cbv iota.
      split; [reflexivity | eauto].
    + assert (Hr' : Zpos r < 2 ^ 53) by lia.
      pose proof (digits_le r 53 Hr'). pose proof (digits_pos r).
      cbn [Zdigits2]. fold (digits r).
      rewrite fexp_subnormal by lia. change (-1074 - -1074) with 0.
      cbn [shr shr_record_of_loc shr_m].
      change (-1074 <=? emax - prec) with true. cbv iota.
      split; [|eauto].
      unfold valid_binary, bounded, canonical_mantissa. fold (digits r).
      rewrite fexp_subnormal by lia. reflexivity.
Qed.

Lemma sqrt_positive (p : positive) (e : Z) :
  -1074 <= e -> positive_sf (SFsqrt prec emax (S754_finite false p (2 * e))).
Proof.
  intros He. unfold SFsqrt, SFsqrt_core_binary.
  cbn [Zdigits2]. fold (digits p).
  pose proof (digits_pos p) as Dp. pose proof (digits_bounds p) as [Dlo Dhi].
  set (d := digits p) in *.
  set (t := Z.div2 (d + 2 * e + 1)).
  assert (Ht : 2 * t <= d + 2 * e + 1 <= 2 * t + 1).
  { unfold t. rewrite Z.div2_div. pose proof (Z.div_mod (d + 2 * e + 1) 2).
    pose proof (Z.mod_pos_bound (d + 2 * e + 1) 2). lia. }
  assert (D2 : Z.div2 (2 * e) = e).
  { rewrite Z.div2_div, Z.mul_comm, Z.div_mul; lia. }
  rewrite D2.
  set (e' := Z.min (fexp prec emax t) e).
  assert (He' : -1074 <= e' <= e).
  { unfold e', fexp. change (SpecFloat.emin prec emax) with (-1074). lia. }
  set (s := 2 * e - 2 * e').
  assert (Hs : 0 <= s) by (unfold s; lia).
  set (m' := match s with Z.pos _ => Z.shiftl (Zpos p) s | 0 => Zpos p | Z.neg _ => 0 end).
  assert (Hm' : m' = Zpos p * 2 ^ s).
  { unfold m'. destruct s as [|k|k] eqn:Es; try lia.
    rewrite Z.shiftl_mul_pow2 by lia. reflexivity. }
  assert (P2 : 0 < 2 ^ s) by (apply Z.pow_pos_nonneg; lia).
  assert (Mlo : 2 ^ (d - 1 + s) <= m').
  { rewrite Hm', Z.pow_add_r by lia. apply Z.mul_le_mono_nonneg_r; lia. }
  assert (Mhi : m' < 2 ^ (d + s)).
  { rewrite Hm', Z.pow_add_r by lia. apply Z.mul_lt_mono_pos_r; lia. }
  pose proof (Z.sqrtrem_spec m') as Sq.
  destruct (Z.sqrtrem m') as [q r].
  destruct Sq as [Sq1 Sq2]; [lia|].
  assert (Hq : 0 < q) by nia.
  destruct q as [|q'|q']; try lia.
  set (l := if r =? 0 then loc_Exact else loc_Inexact (if r <=? Zpos q' then Lt else Gt)).
  destruct (Z_lt_le_dec (t - 53) (-1074)) as [Sub | Nor].
  - (* the root is subnormal *)
    assert (E : e' = -1074).
    { unfold e', fexp. change (SpecFloat.emin prec emax) with (-1074). change prec with 53. lia. }
    rewrite E. apply round_aux_subnormal_positive.
    assert (d + s <= 104) by (unfold s; lia).
    assert (2 ^ (d + s) <= 2 ^ 104) by (apply Z.pow_le_mono_r; lia).
    apply digits_le. change (2 ^ 53) with (2 ^ 52 * 2). 
    assert (Zpos q' < 2 ^ 52); [|lia].
    change (2 ^ 104) with (2 ^ 52 * 2 ^ 52) in *. nia.
  - apply round_aux_normal_positive; [|lia].
    destruct (Z_lt_le_dec e (t - 53)) as [Big | Mid].
    + (* a long mantissa: no scaling *)
      assert (E : e' = e).
      { unfold e', fexp. change (SpecFloat.emin prec emax) with (-1074). change prec with 53. lia. }
      assert (s = 0) by (unfold s; lia).
      assert (106 <= d - 1 + s) by lia.
      assert (2 ^ 106 <= 2 ^ (d - 1 + s)) by (apply Z.pow_le_mono_r; lia).
      assert (53 < digits q'); [|lia].
      apply digits_ge. change (2 ^ 106) with (2 ^ 53 * 2 ^ 53) in *. nia.
    + assert (E : e' = t - 53).
      { unfold e', fexp. change (SpecFloat.emin prec emax) with (-1074). change prec with 53. lia. }
      assert (104 <= d - 1 + s) by (unfold s; lia).
      assert (2 ^ 104 <= 2 ^ (d - 1 + s)) by (apply Z.pow_le_mono_r; lia).
      assert (52 < digits q'); [|lia].
      apply digits_ge. change (2 ^ 104) with (2 ^ 52 * 2 ^ 52) in *. nia.
Qed.


End B64Facts.


(** ** The literals of the script as binary64 numbers *)

Lemma lit_0_78 : B64.pos_normal (Py.float_literal 0.78) 7025615418697974 (-53).
Proof. split; [vm_compute; reflexivity | lia]. Qed.

Lemma lit_0_28 : B64.pos_normal (Py.float_literal 0.28) 5044031582654956 (-54).
Proof. split; [vm_compute; reflexivity | lia]. Qed.

Lemma lit_0_18 : B64.pos_normal (Py.float_literal 0.18) 6485183463413514 (-55).
Proof. split; [vm_compute; reflexivity | lia]. Qed.

Lemma lit_0_16 : B64.pos_normal (Py.float_literal 0.16) 5764607523034235 (-55).
Proof. split; [vm_compute; reflexivity | lia]. Qed.

Lemma lit_0_08 : B64.pos_normal (Py.float_literal 0.08) 5764607523034235 (-56).
Proof. split; [vm_compute; reflexivity | lia]. Qed.

(** [size * c] for a positive [size] and a literal [c < 1] is again a
    positive normal float: it neither overflows nor vanishes. *)
Lemma scale_by_literal (s c : float) (m mc : positive) (e ec : Z) :
  B64.pos_normal s m e -> B64.pos_normal c mc ec ->
  (-200 <= e <= 971)%Z -> (-60 <= ec <= -53)%Z ->
  (Zpos mc <= 2 ^ 53 - 2 ^ 3)%Z ->
  exists (m' : positive) (k : Z),
    B64.pos_normal (s * c)%float m' (e + ec + k)
    /\ (52 <= k <= 54)%Z /\ (e + ec + k <= e)%Z
    /\ (Zpos m * Zpos mc - 2 ^ k < Zpos m' * 2 ^ k <= Zpos m * Zpos mc + 2 ^ k)%Z.
Proof.
  intros Hs Hc He Hec Hmc.
  destruct (B64Facts.mul_pos_normal s c m mc e ec Hs Hc) as (m' & k & R & Hm & Hk & Hv);
    [lia|].
  destruct Hs as [_ Ms]. destruct Hc as [_ Mc].
  assert (Hk' : (e + ec + k <= e)%Z).
  { destruct (Z.eq_dec k 54) as [-> | ]; [|lia].
    destruct (Z.eq_dec ec (-53)) as [-> | ]; [|lia].
    exfalso. nia. }
  exists m', k. repeat split; try lia.
  rewrite R. replace (e + ec + k <=? 971)%Z with true; [reflexivity|].
  symmetry. apply Z.leb_le. lia.
Qed.


Ltac split_shift k :=
  let H := fresh in
  assert (H : (k = 52 \/ k = 53 \/ k = 54)%Z) by lia;
  destruct H as [-> | [-> | ->]].

(** ** The geometry over the real numbers *)

Section OnReals.
#[local] Existing Instance Real.
Local Open Scope R_scope.

(** The direction of the axis has norm one. *)
Lemma unit_direction (a b : R) :
  0 < a * a + b * b ->
  let L := R_sqrt.sqrt (a * a + b * b) in
  0 < L /\ (a / L) * (a / L) + (b / L) * (b / L) = 1.
Proof.
  intros H L.
  assert (HL : 0 < L) by (apply sqrt_lt_R0; assumption).
  split; [assumption|].
  assert (E : L * L = a * a + b * b) by (apply sqrt_sqrt; lra).
  replace (a / L * (a / L) + b / L * (b / L)) with ((a * a + b * b) / (L * L))
    by (field; lra).
  rewrite E. field. lra.
Qed.


Lemma real_literals :
  lit 0.28 = 28 / 100 /\ lit 0.18 = 18 / 100 /\ lit 0.78 = 78 / 100
  /\ lit 0.16 = 16 / 100 /\ lit 0.85 = 85 / 100.
Proof. cbn [lit Real]. unfold Q2R. cbn [Qnum Qden]. repeat split; lra. Qed.

Lemma real_axis (size : Z) :
  (0 < size)%Z ->
  dx size = 0.5 * IZR size /\ dy size = 0.6 * IZR size
  /\ 0 < length size
  /\ length size = R_sqrt.sqrt (0.5 * IZR size * (0.5 * IZR size) + 0.6 * IZR size * (0.6 * IZR size))
  /\ ux size * ux size + uy size * uy size = 1.
Proof.
  intros Hsize. apply IZR_lt in Hsize.
  destruct real_literals as (L28 & L18 & L78 & _).
  assert (Dx : dx size = 0.5 * IZR size).
  { unfold dx, end_, start. cbn [fst snd sub mul of_int Real]. rewrite L28, L78. lra. }
  assert (Dy : dy size = 0.6 * IZR size).
  { unfold dy, end_, start. cbn [fst snd sub mul of_int Real]. rewrite L18, L78. lra. }
  assert (P : 0 < dx size * dx size + dy size * dy size) by (rewrite Dx, Dy; nra).
  destruct (unit_direction _ _ P) as [HL HU].
  repeat split; try assumption.
  unfold length. cbn [hypot Real]. rewrite Dx, Dy. reflexivity.
Qed.



End OnReals.

(** ** The script over binary64 *)

Section OnBinary64.

(** [math.hypot] of the platform; the geometry is read over binary64. *)
Variable h : float -> float -> float.

#[local] Hint Extern 0 (Arith _) => exact (F64 h) : typeclass_instances.

(** The horizontal extent of the stroke axis is positive for every positive
    [size] that converts to a float, whatever [math.hypot] is. *)
Lemma dx_positive (size : Z) :
  (0 < size)%Z -> Py.int_fits_float size = true ->
  (0 <? dx size)%float = true.
Proof.
  intros Hsize Hfit.
  destruct (B64Facts.float_of_int_pos size Hsize Hfit) as (m & e & Hs & He).
  destruct (scale_by_literal _ _ _ _ _ _ Hs lit_0_78) as (mA & kA & [HA MA] & HkA & _ & VA);
    [lia | lia | lia |].
  destruct (scale_by_literal _ _ _ _ _ _ Hs lit_0_28) as (mB & kB & [HB MB] & HkB & _ & VB);
    [lia | lia | lia |].
  destruct Hs as [_ Ms].
  unfold dx, end_, start. cbn [fst snd sub mul of_int lit F64 Float64].
  apply (B64Facts.sub_pos _ _ mA mB _ _ (e - 2) (kA - 51) (kB - 52) HA HB); try lia.
  split_shift kA; split_shift kB;
    repeat match goal with |- context [(2 ^ ?t)%Z] =>
      progress (let v := eval vm_compute in t in change t with v) end;
    lia.
Qed.

Lemma dy_positive (size : Z) :
  (0 < size)%Z -> Py.int_fits_float size = true ->
  (0 <? dy size)%float = true.
Proof.
  intros Hsize Hfit.
  destruct (B64Facts.float_of_int_pos size Hsize Hfit) as (m & e & Hs & He).
  destruct (scale_by_literal _ _ _ _ _ _ Hs lit_0_78) as (mA & kA & [HA MA] & HkA & _ & VA);
    [lia | lia | lia |].
  destruct (scale_by_literal _ _ _ _ _ _ Hs lit_0_18) as (mB & kB & [HB MB] & HkB & _ & VB);
    [lia | lia | lia |].
  destruct Hs as [_ Ms].
  unfold dy, end_, start. cbn [fst snd sub mul of_int lit F64 Float64].
  apply (B64Facts.sub_pos _ _ mA mB _ _ (e - 3) (kA - 50) (kB - 52) HA HB); try lia.
  split_shift kA; split_shift kB;
    repeat match goal with |- context [(2 ^ ?t)%Z] =>
      progress (let v := eval vm_compute in t in change t with v) end;
    lia.
Qed.

Lemma positive_not_zero (x : float) :
  (0 <? x)%float = true -> (x =? 0)%float = false.
Proof.
  rewrite ltb_spec, eqb_spec. change (Prim2SF 0) with (S754_zero false).
  destruct (Prim2SF x) as [s | s | | s m e]; try destruct s; cbn; congruence.
Qed.

Lemma length_positive (size : Z) :
  hypot_positive h -> (0 < size)%Z -> Py.int_fits_float size = true ->
  (0 <? length size)%float = true.
Proof.
  intros Hh Hsize Hfit. unfold length. cbn [hypot F64 Float64].
  apply Hh; [apply dx_positive | apply dy_positive]; assumption.
Qed.

(** [int(x)] of a positive finite float is the integer part of the number
    [x] denotes. *)
Lemma int_of_float_floor (x : float) (m : positive) (e : Z) :
  Prim2SF x = S754_finite false m e ->
  exists w : Z,
    Py.int_of_float x = inr w
    /\ (inject_Z w <= Py.exact x)%Q /\ (Py.exact x < inject_Z w + 1)%Q.
Proof.
  intros Hx. unfold Py.int_of_float, Py.exact. rewrite Hx.
  eexists. split; [reflexivity|].
  destruct e as [|k|k].
  - cbn. unfold Qle, Qlt. cbn. lia.
  - unfold Qle, Qlt. cbn [Qnum Qden inject_Z Qplus]. lia.
  - assert (P : (0 < 2 ^ Zpos k)%Z) by (apply Z.pow_pos_nonneg; lia).
    rewrite Z.shiftr_div_pow2 by lia.
    unfold Qle, Qlt. cbn [Qnum Qden inject_Z Qplus].
    rewrite Z2Pos.id by assumption.
    pose proof (Z.mul_div_le (Zpos m) (2 ^ Zpos k) P).
    pose proof (Z.mul_succ_div_gt (Zpos m) (2 ^ Zpos k) P).
    lia.
Qed.

(** The stroke width handed to [draw.line] is a float that [int] accepts. *)
Lemma nib_line_width_finite (size : Z) :
  (0 < size)%Z -> Py.int_fits_float size = true ->
  exists m e, Prim2SF (nib_line_width size) = S754_finite false m e.
Proof.
  intros Hsize Hfit.
  destruct (B64Facts.float_of_int_pos size Hsize Hfit) as (m & e & Hs & He).
  destruct (scale_by_literal _ _ _ _ _ _ Hs lit_0_16) as (m1 & k1 & H1 & Hk1 & Le1 & _);
    [lia | lia | lia |].
  destruct (scale_by_literal _ _ _ _ _ _ H1 lit_0_08) as (m2 & k2 & [H2 _] & _);
    [lia | lia | lia |].
  unfold nib_line_width, width. cbn [mul of_int lit F64 Float64]. eauto.
Qed.



(** Unfolding one run of [create_icon]: the three checks decide whether it
    completes. *)
Lemma create_icon_run (size w : Z) (tr : list op) :
  Py.int_fits_float size = true ->
  (length size =? 0)%float = false ->
  Py.int_of_float (nib_line_width size) = inr w ->
  create_icon h size tr = (inr tt, tr ++ icon_trace h size w).
Proof.
  intros Hfit Hlen Hw.
  unfold create_icon, bind, emit, unless_ok, lift, ret.
  rewrite Hfit, Hlen, Hw. cbn [negb].
  unfold icon_trace. repeat rewrite <- app_assoc. reflexivity.
Qed.

(** For every positive [size] that converts to a float, [create_icon]
    completes and performs exactly the operations of [icon_trace]. *)
Lemma create_icon_completes (size : Z) (tr : list op) :
  hypot_positive h -> (0 < size)%Z -> Py.int_fits_float size = true ->
  exists w : Z,
    Py.int_of_float (nib_line_width size) = inr w
    /\ create_icon h size tr = (inr tt, tr ++ icon_trace h size w).
Proof.
  intros Hh Hsize Hfit.
  destruct (nib_line_width_finite size Hsize Hfit) as (m & e & Hfin).
  destruct (int_of_float_floor _ _ _ Hfin) as (w & Hw & _).
  exists w. split; [assumption|].
  apply create_icon_run; try assumption.
  apply positive_not_zero, length_positive; assumption.
Qed.

(** A run of [create_icon] does not look at the operations performed before
    it: it only appends its own. *)
Lemma create_icon_frame (size : Z) (tr : list op) :
  create_icon h size tr =
    (fst (create_icon h size []), tr ++ performed (create_icon h size)).
Proof.
  unfold performed, create_icon, bind, emit, unless_ok, lift, raise, ret.
  destruct (Py.int_fits_float size); cbn [fst snd app negb];
    [|reflexivity].
  destruct (length size =? 0)%float; cbn [fst snd app negb];
    [reflexivity|].
  destruct (Py.int_of_float (nib_line_width size)); cbn [fst snd app];
    repeat rewrite <- app_assoc; reflexivity.
Qed.






(** C5. For every positive [size] the axis length is strictly positive, so
    the divisions by it are defined: no run of [create_icon] on a positive
    [size] stops with [ZeroDivisionError]. *)
Theorem axis_length_positive (size : Z) (tr : list op) :
  hypot_positive h -> (0 < size)%Z ->
  (Py.int_fits_float size = true ->
     (0 <? length size)%float = true /\ (length size =? 0)%float = false)
  /\ fst (create_icon h size tr) <> inl Py.ZeroDivisionError.
Proof.
  intros Hh Hsize. split.
  - intros Hfit. pose proof (length_positive size Hh Hsize Hfit) as Hl.
    split; [assumption | apply positive_not_zero; assumption].
  - destruct (Py.int_fits_float size) eqn:Hfit.
    + destruct (create_icon_completes size tr Hh Hsize Hfit) as (w & _ & Run).
      rewrite Run. cbn. discriminate.
    + unfold create_icon, bind, emit, unless_ok, raise. rewrite Hfit.
      cbn. discriminate.
Qed.





Lemma main_run :
  hypot_positive h ->
  exists w1 w2 : Z,
    main h [] = (inr tt, icon_trace h 192 w1 ++ icon_trace h 512 w2).
Proof.
  intros Hh.
  destruct (create_icon_completes 192 [] Hh) as (w1 & _ & Run1);
    [lia | reflexivity |].
  destruct (create_icon_completes 512 (icon_trace h 192 w1) Hh) as (w2 & _ & Run2);
    [lia | reflexivity |].
  exists w1, w2. unfold main, for_each, bind, ret.
  rewrite Run1. cbn [app]. rewrite Run2. reflexivity.
Qed.

(** C6. The driver calls [create_icon] twice, for 192 and then for 512: it
    creates two canvases, writes exactly the two files [pen-192.png] and
    [pen-512.png] of the icons directory, and prints the relative path of
    each right after saving it. *)
Theorem main_renders_both_sizes :
  hypot_positive h ->
  main h = (create_icon h 192 ;; create_icon h 512 ;; ret tt)%py
  /\ fst (main h []) = inr tt
  /\ canvases (performed (main h)) =
       [("RGBA", (192, 192)); ("RGBA", (512, 512))]%Z%string
  /\ saved_files (performed (main h)) =
       ["public/icons/pen-192.png"; "public/icons/pen-512.png"]%string
  /\ printed (performed (main h)) =
       ["Saved public/icons/pen-192.png"; "Saved public/icons/pen-512.png"]%string
  /\ outputs (performed (main h)) =
       [ Image_save ["public"; "icons"; "pen-192.png"]%string "PNG";
         print "Saved public/icons/pen-192.png";
         Image_save ["public"; "icons"; "pen-512.png"]%string "PNG";
         print "Saved public/icons/pen-512.png" ].
Proof.
  intros Hh. destruct (main_run Hh) as (w1 & w2 & Run).
  unfold performed. rewrite Run. repeat split; reflexivity.
Qed.






End OnBinary64.

Section ReferenceHypot.
Local Open Scope Z_scope.

Lemma positive_cases (x : float) :
  (0 <? x)%float = true ->
  (exists m e, Prim2SF x = S754_finite false m e) \/ Prim2SF x = S754_infinity false.
Proof.
  rewrite ltb_spec. change (Prim2SF 0) with (S754_zero false).
  destruct (Prim2SF x) as [s | s | | s m e]; try destruct s; cbn; try discriminate; eauto.
Qed.

(** The reference [math.hypot] is positive on positive arguments. *)
Lemma hypot_cr_positive : hypot_positive hypot_cr.
Proof.
  intros x y Hx Hy. unfold hypot_cr.
  destruct (positive_cases x Hx) as [(mx & ex & Ex) | Ex];
    destruct (positive_cases y Hy) as [(my & ey & Ey) | Ey];
    rewrite Ex; try rewrite Ey; try reflexivity.
  pose proof (B64Facts.valid_exponent _ _ _ _ Ex). pose proof (B64Facts.valid_exponent _ _ _ _ Ey).
  cbv zeta. set (e := Z.min ex ey).
  rewrite !Z.shiftl_mul_pow2 by (unfold e; lia).
  assert (0 < 2 ^ (ex - e)) by (apply Z.pow_pos_nonneg; unfold e; lia).
  assert (0 < 2 ^ (ey - e)) by (apply Z.pow_pos_nonneg; unfold e; lia).
  destruct (Zpos mx * 2 ^ (ex - e) * (Zpos mx * 2 ^ (ex - e))
            + Zpos my * 2 ^ (ey - e) * (Zpos my * 2 ^ (ey - e))) as [|p|p] eqn:Ep; try nia.
  destruct (B64Facts.sqrt_positive p e) as [V P]; [unfold e; lia|].
  apply B64Facts.ltb_zero_pos. rewrite Prim2SF_SF2Prim by exact V. exact P.
Qed.

End ReferenceHypot.

(** ** Binary fractions

    The coordinates of binary64 points are binary fractions, and so is the
    square of the distance of two of them. *)

Lemma dyadic_inject (z : Z) : dyadic (inject_Z z).
Proof. exists z, 0%Z. split; [lia|]. change (inject_Z (2 ^ 0)) with 1%Q. ring. Qed.

Lemma inject_Z_pow_add (a b : Z) :
  (0 <= a)%Z -> (0 <= b)%Z ->
  (inject_Z (2 ^ (a + b)) == inject_Z (2 ^ a) * inject_Z (2 ^ b))%Q.
Proof. intros. rewrite Z.pow_add_r, inject_Z_mult by lia. reflexivity. Qed.

Lemma dyadic_opp (q : Q) : dyadic q -> dyadic (- q).
Proof.
  intros (n & k & Hk & E). exists (- n)%Z, k. split; [assumption|].
  rewrite inject_Z_opp, <- E. ring.
Qed.

Lemma dyadic_mult (p q : Q) : dyadic p -> dyadic q -> dyadic (p * q).
Proof.
  intros (n & k & Hk & E) (n' & k' & Hk' & E').
  exists (n * n')%Z, (k + k')%Z. split; [lia|].
  rewrite inject_Z_pow_add, inject_Z_mult, <- E, <- E' by assumption. ring.
Qed.

Lemma dyadic_plus (p q : Q) : dyadic p -> dyadic q -> dyadic (p + q).
Proof.
  intros (n & k & Hk & E) (n' & k' & Hk' & E').
  exists (n * 2 ^ k' + n' * 2 ^ k)%Z, (k + k')%Z. split; [lia|].
  rewrite inject_Z_pow_add, inject_Z_plus, !inject_Z_mult, <- E, <- E' by assumption.
  ring.
Qed.

Lemma dyadic_minus (p q : Q) : dyadic p -> dyadic q -> dyadic (p - q).
Proof. intros Hp Hq. apply dyadic_plus; [assumption | apply dyadic_opp; assumption]. Qed.

Lemma exact_dyadic (x : float) : dyadic (Py.exact x).
Proof.
  unfold Py.exact. destruct (Prim2SF x) as [s | s | | s m e];
    try apply (dyadic_inject 0).
  assert (D : dyadic match e with
                     | Z.neg k => Z.pos m # Z.to_pos (2 ^ Z.pos k)
                     | _ => inject_Z (Z.shiftl (Z.pos m) e)
                     end).
  { destruct e as [|k|k]; try apply dyadic_inject.
    exists (Zpos m), (Zpos k). split; [lia|].
    assert (P : (0 < 2 ^ Zpos k)%Z) by (apply Z.pow_pos_nonneg; lia).
    unfold Qeq. cbn [Qnum Qden Qmult inject_Z].
    rewrite Pos2Z.inj_mul, Z2Pos.id by assumption. ring. }
  destruct s; [apply dyadic_opp|]; exact D.
Qed.

Lemma dist2_dyadic (p q : fpoint) : dyadic (dist2 p q).
Proof.
  unfold dist2.
  apply dyadic_plus; apply dyadic_mult; apply dyadic_minus; apply exact_dyadic.
Qed.

(** A fraction with an odd factor 5 left in its denominator is not dyadic. *)
Lemma not_dyadic_fifth (a : Z) (b : positive) :
  (Zpos b mod 5 = 0)%Z -> (a mod 5 <> 0)%Z -> ~ dyadic (a # b).
Proof.
  intros Hb Ha (n & k & Hk & E).
  unfold Qeq in E. cbn [Qnum Qden Qmult inject_Z] in E.
  rewrite Pos.mul_1_r, Z.mul_1_r in E.
  assert (D : (5 | a * 2 ^ k)%Z).
  { apply Z.mod_divide in Hb; [|lia]. destruct Hb as [c Hc].
    exists (n * c)%Z. rewrite E, Hc. ring. }
  rewrite Z.mul_comm in D. apply Z.gauss in D.
  - apply Ha. apply Z.mod_divide; [lia | assumption].
  - apply (Z.coprime_pow_r 5 2 k Hk). reflexivity.
Qed.

Lemma dyadic_eq (p q : Q) : (p == q)%Q -> dyadic p -> dyadic q.
Proof.
  intros E (n & k & Hk & H). exists n, k. split; [assumption|].
  rewrite <- E. exact H.
Qed.

(** No two binary64 points are at a distance whose square keeps a factor 5
    in its denominator. *)
Lemma never_exactly_apart (p q : fpoint) (d2 : Q) (a : Z) (b : positive) :
  (d2 == a # b)%Q -> (Zpos b mod 5 = 0)%Z -> (a mod 5 <> 0)%Z ->
  exactly_apart p q d2 = false.
Proof.
  intros E Hb Ha. unfold exactly_apart.
  destruct (Qeq_bool (dist2 p q) d2) eqn:B; [|reflexivity].
  apply Qeq_bool_eq in B. exfalso.
  apply (not_dyadic_fifth a b Hb Ha).
  apply (dyadic_eq (dist2 p q)); [rewrite B; exact E | apply dist2_dyadic].
Qed.

(** Whatever [math.hypot] returns, at size 192 the sides of the computed
    body are not exactly [0.16 * size] and [hypot(0.5 * size, 0.6 * size)]
    long, and the computed apex is not exactly [0.85 * 0.16 * size] away from
    [end]: the squares of these lengths are not binary fractions. *)
Lemma lengths_never_exact_at_192 (h : float -> float -> float) :
  let b := vertex (body (A := F64 h) 192) in
  exactly_apart (b 0%nat) (b 3%nat) (Qsq (0.16 * 192)) = false
  /\ exactly_apart (b 1%nat) (b 2%nat) (Qsq (0.16 * 192)) = false
  /\ exactly_apart (b 0%nat) (b 1%nat) (Qsq (0.5 * 192) + Qsq (0.6 * 192)) = false
  /\ exactly_apart (b 3%nat) (b 2%nat) (Qsq (0.5 * 192) + Qsq (0.6 * 192)) = false
  /\ exactly_apart (nib_tip (A := F64 h) 192) (end_ (A := F64 h) 192)
       (Qsq (0.85 * 0.16 * 192)) = false.
Proof.
  cbv zeta. repeat split.
  - apply (never_exactly_apart _ _ _ 589824 625); [reflexivity | reflexivity | discriminate].
  - apply (never_exactly_apart _ _ _ 589824 625); [reflexivity | reflexivity | discriminate].
  - apply (never_exactly_apart _ _ _ 562176 25); [reflexivity | reflexivity | discriminate].
  - apply (never_exactly_apart _ _ _ 562176 25); [reflexivity | reflexivity | discriminate].
  - apply (never_exactly_apart _ _ _ 10653696 15625); [reflexivity | reflexivity | discriminate].
Qed.

(** ** The claims on concrete runs *)





(** *** Outside the positive sizes that convert to float

    The preconditions of the theorems above are sharp.  At size 0 the axis
    has length zero and the run stops at the division, having only created
    the canvas; a size of [2^1024] does not convert to float and the run
    stops with [OverflowError] at [size * 0.28]. *)

Lemma create_icon_at_zero :
  create_icon hypot_cr 0 [] =
    (inl Py.ZeroDivisionError, [Image_new "RGBA" (0, 0)%Z BACKGROUND]).
Proof. vm_compute. reflexivity. Qed.

Lemma create_icon_too_large :
  create_icon hypot_cr (2 ^ 1024) [] =
    (inl Py.OverflowError, [Image_new "RGBA" (2 ^ 1024, 2 ^ 1024)%Z BACKGROUND]).
Proof. vm_compute. reflexivity. Qed.

(** *** The hypotheses hold on a concrete run

    Each statement below instantiates a theorem above at the reference
    [math.hypot] and at size 192 (the driver, at its two sizes). *)


Lemma axis_length_positive_witness :
  hypot_positive hypot_cr /\ (0 < 192)%Z
  /\ (Py.int_fits_float 192 = true ->
        (0 <? length (A := F64 hypot_cr) 192)%float = true
        /\ (length (A := F64 hypot_cr) 192 =? 0)%float = false)
  /\ fst (create_icon hypot_cr 192 []) <> inl Py.ZeroDivisionError.
Proof.
  split; [exact hypot_cr_positive|]. split; [lia|].
  apply (axis_length_positive hypot_cr 192 [] hypot_cr_positive). lia.
Defined.


Lemma main_renders_both_sizes_witness :
  hypot_positive hypot_cr
  /\ main hypot_cr = (create_icon hypot_cr 192 ;; create_icon hypot_cr 512 ;; ret tt)%py
  /\ fst (main hypot_cr []) = inr tt
  /\ canvases (performed (main hypot_cr)) =
       [("RGBA", (192, 192)); ("RGBA", (512, 512))]%Z%string
  /\ saved_files (performed (main hypot_cr)) =
       ["public/icons/pen-192.png"; "public/icons/pen-512.png"]%string
  /\ printed (performed (main hypot_cr)) =
       ["Saved public/icons/pen-192.png"; "Saved public/icons/pen-512.png"]%string
  /\ outputs (performed (main hypot_cr)) =
       [ Image_save ["public"; "icons"; "pen-192.png"]%string "PNG";
         print "Saved public/icons/pen-192.png";
         Image_save ["public"; "icons"; "pen-512.png"]%string "PNG";
         print "Saved public/icons/pen-512.png" ].
Proof.
  split; [exact hypot_cr_positive|].
  apply (main_renders_both_sizes hypot_cr hypot_cr_positive).
Defined.



(** ** Beyond the single complete run

    The rest of the development follows the script where the statements
    above do not go: runs that fail, the file names, the driver and the
    module as a whole, and the geometry of the remaining shapes. *)

(** *** File names *)

Lemma to_int_nonnil (n : Z) :
  Z.to_int n <> Decimal.Pos Decimal.Nil /\ Z.to_int n <> Decimal.Neg Decimal.Nil.
Proof.
  destruct n as [|p|p]; cbn; split; try discriminate; intros [= H];
    exact (DecimalPos.Unsigned.to_uint_nonnil p H).
Qed.

(** [str] is one-to-one: an integer can be read back from its decimal
    text. *)
Lemma str_inj (a b : Z) : Py.str a = Py.str b -> a = b.
Proof.
  unfold Py.str. intros E.
  apply (f_equal NilZero.int_of_string) in E.
  destruct (to_int_nonnil a) as [A1 A2]. destruct (to_int_nonnil b) as [B1 B2].
  rewrite !NilZero.isi in E by assumption.
  injection E as E. apply DecimalZ.to_int_inj. exact E.
Qed.

Lemma length_append (s t : string) :
  String.length (s ++ t) = (String.length s + String.length t)%nat.
Proof. induction s as [|c s IH]; cbn; [reflexivity | rewrite IH; reflexivity]. Qed.

Lemma append_inv_tail (s t u : string) : (s ++ u = t ++ u)%string -> s = t.
Proof.
  revert t. induction s as [|c s IH]; intros [|d t] E; cbn in E.
  - reflexivity.
  - exfalso. apply (f_equal String.length) in E.
    cbn in E. rewrite length_append in E. lia.
  - exfalso. apply (f_equal String.length) in E.
    cbn in E. rewrite length_append in E. lia.
  - injection E as -> E. f_equal. apply IH. exact E.
Qed.

(** *** Every way a run can go *)

Section Runs.

Variable h : float -> float -> float.

#[local] Hint Extern 0 (Arith _) => exact (F64 h) : typeclass_instances.

(** The four ways a run of [create_icon] can go: the size does not convert
    to a float; the axis has length zero; [int] refuses the stroke width;
    the run completes. *)
Lemma create_icon_cases (size : Z) :
  (Py.int_fits_float size = false
   /\ create_icon h size [] =
        (inl Py.OverflowError, [Image_new "RGBA" (size, size) BACKGROUND]))
  \/ (Py.int_fits_float size = true /\ (length size =? 0)%float = true
      /\ create_icon h size [] =
           (inl Py.ZeroDivisionError, [Image_new "RGBA" (size, size) BACKGROUND]))
  \/ (Py.int_fits_float size = true /\ (length size =? 0)%float = false
      /\ exists e, Py.int_of_float (nib_line_width size) = inl e
           /\ create_icon h size [] = (inl e, firstn 4 (icon_trace h size 0)))
  \/ (Py.int_fits_float size = true /\ (length size =? 0)%float = false
      /\ exists w, Py.int_of_float (nib_line_width size) = inr w
           /\ create_icon h size [] = (inr tt, icon_trace h size w)).
Proof.
  unfold create_icon, bind, emit, unless_ok, lift, raise, ret.
  destruct (Py.int_fits_float size); cbn [fst snd app negb]; [|left; auto].
  right.
  destruct (length size =? 0)%float; cbn [fst snd app negb]; [left; auto|].
  right.
  destruct (Py.int_of_float (nib_line_width size)) as [e | w]; cbn [fst snd app].
  - left. repeat split. exists e. split; reflexivity.
  - right. repeat split. exists w. split; reflexivity.
Qed.

(** [int(width * 0.08)] never fails on a size that is not negative. *)
Lemma stroke_width_defined (size : Z) :
  (0 <= size)%Z -> Py.int_fits_float size = true ->
  exists w : Z, Py.int_of_float (nib_line_width size) = inr w.
Proof.
  intros Hsize Hfit. destruct size as [|p|p]; [| |lia].
  - exists 0%Z. vm_compute. reflexivity.
  - destruct (nib_line_width_finite h (Zpos p)) as (m & e & Hfin); [lia | assumption |].
    destruct (int_of_float_floor _ _ _ Hfin) as (w & Hw & _). eauto.
Qed.

(** X1. The script's own arithmetic can stop a run in one way only.  For
    every [size] that is not negative (and converts to a float), whatever
    [math.hypot] returns (zero, an infinity, a NaN): [create_icon] raises
    [ZeroDivisionError] when the length [math.hypot] returned is zero, and
    completes otherwise; [int(width * 0.08)] is always defined. *)
Theorem create_icon_outcome (size : Z) (tr : list op) :
  (0 <= size)%Z -> Py.int_fits_float size = true ->
  fst (create_icon h size tr) =
    (if (length size =? 0)%float then inl Py.ZeroDivisionError else inr tt)
  /\ exists w : Z, Py.int_of_float (nib_line_width size) = inr w.
Proof.
  intros Hsize Hfit.
  destruct (stroke_width_defined size Hsize Hfit) as (w & Hw).
  split; [|eauto].
  rewrite create_icon_frame. cbn [fst].
  destruct (create_icon_cases size)
    as [(F & R) | [(F & L & R) | [(F & L & e & I & R) | (F & L & w' & I & R)]]];
    rewrite R; cbn [fst]; try rewrite L; try reflexivity; congruence.
Qed.


Lemma saved_files_of_run (size : Z) :
  saved_files (performed (create_icon h size)) = []
  \/ saved_files (performed (create_icon h size)) =
       [("public/icons/pen-" ++ Py.str size ++ ".png")%string].
Proof.
  unfold performed.
  destruct (create_icon_cases size)
    as [(F & R) | [(F & L & R) | [(F & L & e & I & R) | (F & L & w & I & R)]]];
    rewrite R; cbn [snd]; [left | left | left | right]; reflexivity.
Qed.

(** X3. Two calls of [create_icon] write to the same file only if they were
    given the same size: icons of different sizes never overwrite one
    another. *)
Theorem distinct_sizes_distinct_files (a b : Z) (p : string) :
  In p (saved_files (performed (create_icon h a))) ->
  In p (saved_files (performed (create_icon h b))) ->
  a = b.
Proof.
  intros Ha Hb.
  destruct (saved_files_of_run a) as [Ea | Ea]; rewrite Ea in Ha; [destruct Ha|].
  destruct (saved_files_of_run b) as [Eb | Eb]; rewrite Eb in Hb; [destruct Hb|].
  destruct Ha as [<- | []]. destruct Hb as [Hb | []].
  cbn in Hb. injection Hb as Hb.
  apply str_inj. apply (append_inv_tail _ _ ".png"). symmetry. exact Hb.
Qed.

(** [main] is its first call and, if that one completes, its second. *)
Lemma main_unfold :
  main h [] =
    match create_icon h 192 [] with
    | (inr _, tr1) =>
        (fst (create_icon h 512 []), (tr1 ++ performed (create_icon h 512))%list)
    | (inl e, tr1) => (inl e, tr1)
    end.
Proof.
  unfold main, for_each, bind, ret.
  destruct (create_icon h 192 []) as [[e | []] tr1]; [reflexivity|].
  rewrite (create_icon_frame h 512 tr1).
  destruct (fst (create_icon h 512 [])) as [e | []]; reflexivity.
Qed.


(** [main] does not look at the operations performed before it. *)
Lemma main_frame (tr : list op) :
  main h tr = (fst (main h []), (tr ++ performed (main h))%list).
Proof.
  unfold performed, main, for_each, bind, ret.
  rewrite (create_icon_frame h 192 tr), (create_icon_frame h 192 []).
  cbn [app]. destruct (fst (create_icon h 192 [])) as [e | []]; [reflexivity|].
  rewrite (create_icon_frame h 512 (tr ++ _)), (create_icon_frame h 512 (performed _)).
  destruct (fst (create_icon h 512 [])) as [e | []]; cbn [fst snd];
    rewrite app_assoc; reflexivity.
Qed.

(** X5. Run as a script, the module creates the icons directory before
    anything else, once, and then runs [main], ending as [main] does; every
    file it saves is directly inside that directory. *)
Theorem script_creates_directory_first :
  performed (script h) = Path_mkdir ICON_DIR :: performed (main h)
  /\ fst (script h []) = fst (main h [])
  /\ dirs_created (performed (script h)) = [ICON_DIR]
  /\ Forall (fun fp => exists name : string, fp = (ICON_DIR ++ [name])%list)
       (saved_paths (performed (script h))).
Proof.
  assert (E : script h [] = (fst (main h []), Path_mkdir ICON_DIR :: performed (main h))).
  { unfold script, bind, emit. cbn [app]. rewrite main_frame. reflexivity. }
  unfold performed at 1 3 4. rewrite E. cbn [fst snd].
  split; [reflexivity|]. split; [reflexivity|].
  unfold performed. rewrite main_unfold.
  destruct (create_icon_cases 192)
    as [(F & R) | [(F & L & R) | [(F & L & e & I & R) | (F & L & w & I & R)]]];
    rewrite R; cbn [fst snd].
  - split; [reflexivity | constructor].
  - split; [reflexivity | constructor].
  - split; [reflexivity | constructor].
  - unfold performed.
    destruct (create_icon_cases 512)
      as [(F' & R') | [(F' & L' & R') | [(F' & L' & e' & I' & R') | (F' & L' & w' & I' & R')]]];
      rewrite R'; cbn [snd]; (split; [reflexivity|]);
      repeat (constructor; [eexists; reflexivity|]); constructor.
Qed.

End Runs.

(** *** The remaining shapes, over the real numbers *)

Section MoreOnReals.

#[local] Existing Instance Real.

Local Open Scope R_scope.

Lemma real_literals_all :
  lit 0.28 = 28 / 100 /\ lit 0.18 = 18 / 100 /\ lit 0.78 = 78 / 100
  /\ lit 0.16 = 16 / 100 /\ lit 0.85 = 85 / 100 /\ lit 0.4 = 4 / 10
  /\ lit 0.6 = 6 / 10 /\ lit 0.9 = 9 / 10 /\ lit 0.5 = 5 / 10 /\ lit 0.2 = 2 / 10
  /\ lit 0.08 = 8 / 100.
Proof. cbn [lit Real]. unfold Q2R. cbn [Qnum Qden]. repeat split; lra. Qed.

(** X6. Over the real numbers every vertex of the shadow lies on a short
    edge of the body, between its two ends: the shadow is a strip of the
    body rectangle, from 3/10 to 8/10 of its width.  The body, which is
    painted after the shadow, covers it. *)
Theorem shadow_inside_body (size : Z) :
  let b := fun i => nth i (body size) (0, 0) in
  let s := fun i => nth i (shadow size) (0, 0) in
  let mix := fun (t : R) (p q : R * R) =>
    (t * fst p + (1 - t) * fst q, t * snd p + (1 - t) * snd q) in
  s 0%nat = mix 0.7 (b 0%nat) (b 3%nat)
  /\ s 3%nat = mix 0.2 (b 0%nat) (b 3%nat)
  /\ s 1%nat = mix 0.7 (b 1%nat) (b 2%nat)
  /\ s 2%nat = mix 0.2 (b 1%nat) (b 2%nat).
Proof.
  destruct real_literals_all as (_ & _ & _ & _ & _ & L4 & L6 & _).
  cbv zeta. unfold shadow, body, _offset_point.
  cbn [nth fst snd add mul neg Real]. rewrite L4, L6.
  repeat split; f_equal; lra.
Qed.

(** The unit direction of the axis, and where the axis starts and ends. *)
Lemma real_direction (size : Z) :
  (0 < size)%Z ->
  0.64 < ux size < 0.6402 /\ 0.768 < uy size < 0.7683
  /\ width size = 0.16 * IZR size /\ half size = 0.08 * IZR size
  /\ start size = (0.28 * IZR size, 0.18 * IZR size)
  /\ end_ size = (0.78 * IZR size, 0.78 * IZR size).
Proof.
  intros Hsize.
  destruct (real_axis size Hsize) as (Dx & Dy & HL & _ & HU).
  apply IZR_lt in Hsize.
  destruct real_literals_all as (L28 & L18 & L78 & L16 & _).
  assert (Eu : ux size * length size = 0.5 * IZR size).
  { unfold ux. cbn [div Real]. rewrite Dx. field. lra. }
  assert (Ev : uy size * length size = 0.6 * IZR size).
  { unfold uy. cbn [div Real]. rewrite Dy. field. lra. }
  set (u := ux size) in *. set (v := uy size) in *. set (L := length size) in *.
  assert (Pu : 0 < u) by nra. assert (Pv : 0 < v) by nra.
  assert (R : 6 * u = 5 * v) by nra.
  repeat split; try nra.
  - unfold width. cbn [mul of_int Real]. rewrite L16. lra.
  - unfold half, width. cbn [mul div of_int Real]. rewrite L16. lra.
  - unfold start. cbn [mul of_int Real]. rewrite L28, L18. f_equal; lra.
  - unfold end_. cbn [mul of_int Real]. rewrite L78. f_equal; lra.
Qed.

(** X7. Over the real numbers, for every positive [size], every point
    handed to a drawing call (the vertices of the shadow, the body, the nib,
    the eraser and the clip, and the two ends of the centre line) lies in
    the canvas, the square from [(0, 0)] to [(size, size)]: no part of the
    pen is cut off. *)
Theorem real_drawing_in_canvas (size : Z) :
  (0 < size)%Z ->
  Forall (fun p : R * R => 0 <= fst p <= IZR size /\ 0 <= snd p <= IZR size)
    (shadow size ++ body size ++ nib size ++ nib_line size
     ++ eraser size ++ clip size).
Proof.
  intros Hsize.
  destruct (real_direction size Hsize) as (Bu & Bv & W & Hh & St & En).
  apply IZR_lt in Hsize.
  destruct real_literals_all as (_ & _ & _ & _ & L85 & L4 & L6 & L9 & L5 & L2 & _).
  unfold shadow, body, nib, nib_line, nib_tip, eraser, eraser_start, clip,
    eraser_length, nib_length, _offset_point, perp, px, py.
  rewrite W, Hh, St, En, L85, L4, L6, L9, L5, L2.
  cbn [fst snd add mul neg of_int Real app].
  set (u := ux size) in *. set (v := uy size) in *. set (s := IZR size) in *.
  assert (U1 : 0.64 * s < u * s) by nra. assert (U2 : u * s < 0.6402 * s) by nra.
  assert (V1 : 0.768 * s < v * s) by nra. assert (V2 : v * s < 0.7683 * s) by nra.
  repeat (constructor; [cbn [fst snd]; repeat split; nra|]).
  constructor.
Qed.


Lemma real_drawing_in_canvas_witness :
  (0 < 192)%Z
  /\ Forall (fun p : R * R => 0 <= fst p <= IZR 192 /\ 0 <= snd p <= IZR 192)
       (shadow 192 ++ body 192 ++ nib 192 ++ nib_line 192
        ++ eraser 192 ++ clip 192).
Proof. split; [lia|]. apply (real_drawing_in_canvas 192). lia. Defined.


End MoreOnReals.

(** *** Checked size by size

    For the sizes an icon can reasonably have, the binary64 computation is
    run in the kernel, with the reference [math.hypot]. *)

Lemma all_from_spec (P : Z -> bool) (n : nat) (lo z : Z) :
  all_from lo n P = true -> (lo <= z < lo + Z.of_nat n)%Z -> P z = true.
Proof.
  revert lo. induction n as [|k IH]; intros lo H Hz; [lia|].
  cbn [all_from] in H. apply andb_prop in H. destruct H as [H0 H1].
  destruct (Z.eq_dec z lo) as [-> | Hne]; [assumption|].
  apply (IH (lo + 1)%Z); [assumption | lia].
Qed.

Lemma all_from_range (P : Z -> bool) (lo len z : Z) :
  all_from lo (Z.to_nat len) P = true -> (lo <= z < lo + len)%Z -> P z = true.
Proof.
  intros H Hz. apply (all_from_spec P (Z.to_nat len) lo z H).
  rewrite Z2Nat.id by lia. exact Hz.
Qed.

(** The points drawn by a complete run are those of [pen_points]. *)
Lemma drawn_points_shared (h : float -> float -> float) (size w : Z) :
  drawn_points (icon_trace h size w) =
    pen_points (A := F64 h) (start (A := F64 h) size) (end_ (A := F64 h) size)
      (ux (A := F64 h) size) (uy (A := F64 h) size) (width (A := F64 h) size).
Proof. reflexivity. Qed.

Lemma canvas_check : all_from 1 (Z.to_nat 4096) pen_in_canvas = true.
Proof. vm_compute. reflexivity. Qed.

Lemma stroke_width_check :
  all_from 1 (Z.to_nat 4096) (fun z => stroke_width_is z (8 * z / 625)) = true.
Proof. vm_compute. reflexivity. Qed.

(** X9. In binary64, with a correctly rounded [math.hypot], for every
    [size] from 1 to 4096 the call [create_icon(size)] completes and every
    point it hands to a drawing call has both coordinates between [0] and
    [size]: rounding does not push any vertex off the canvas. *)
Theorem drawing_in_canvas_to_4096 (size : Z) :
  (1 <= size <= 4096)%Z ->
  fst (create_icon hypot_cr size []) = inr tt
  /\ Forall (fun p => in_canvas size p = true)
       (drawn_points (performed (create_icon hypot_cr size))).
Proof.
  intros Hsize.
  pose proof (all_from_range _ 1 4096 size canvas_check ltac:(lia)) as H.
  unfold pen_in_canvas in H. cbv zeta in H.
  apply andb_prop in H. destruct H as [H Hpts].
  apply andb_prop in H. destruct H as [Hfit Hlen].
  apply negb_true_iff in Hlen.
  destruct (stroke_width_defined hypot_cr size ltac:(lia) Hfit) as (w & Hw).
  pose proof (create_icon_run hypot_cr size w [] Hfit Hlen Hw) as Run.
  unfold performed. rewrite Run. cbn [fst snd app].
  split; [reflexivity|].
  rewrite drawn_points_shared. apply Forall_forall. intros p Hp.
  exact (proj1 (forallb_forall _ _) Hpts p Hp).
Qed.

(** X10. For every [size] from 1 to 4096 and every [math.hypot] that is
    positive on positive arguments, the centre line of the nib is drawn
    with stroke width [8 * size / 625] rounded down, the integer part of
    the real number [0.16 * 0.08 * size]: the two binary64 roundings in
    [int(width * 0.08)] never change the integer.  The width is 0 for every
    size below 79, 2 at size 192 and 6 at size 512. *)
Theorem stroke_width_to_4096 (h : float -> float -> float) (size : Z) :
  hypot_positive h -> (1 <= size <= 4096)%Z ->
  fst (create_icon h size []) = inr tt
  /\ line_widths (performed (create_icon h size)) = [(8 * size / 625)%Z]
  /\ ((size < 79)%Z -> line_widths (performed (create_icon h size)) = [0%Z]).
Proof.
  intros Hh Hsize.
  pose proof (all_from_range _ 1 4096 size stroke_width_check ltac:(lia)) as H.
  cbv beta in H. unfold stroke_width_is in H. apply andb_prop in H. destruct H as [Hfit H].
  destruct (create_icon_completes h size [] Hh ltac:(lia) Hfit) as (w & Hw & Run).
  change (nib_line_width (A := F64 h) size)
    with (nib_line_width (A := F64 hypot_cr) size) in Hw.
  rewrite Hw in H. apply Z.eqb_eq in H. subst w.
  unfold performed. rewrite Run. cbn [fst snd app].
  split; [reflexivity|]. split; [reflexivity|].
  intros Hsmall. unfold icon_trace, line_widths. cbn [flat_map app].
  f_equal. apply Z.div_small. lia.
Qed.

(** *** The hypotheses of the statements of this part hold on a concrete
    run *)

Lemma create_icon_outcome_witness :
  (0 <= 192)%Z /\ Py.int_fits_float 192 = true
  /\ fst (create_icon hypot_cr 192 []) =
       (if (length (A := F64 hypot_cr) 192 =? 0)%float
        then inl Py.ZeroDivisionError else inr tt)
  /\ exists w : Z,
       Py.int_of_float (nib_line_width (A := F64 hypot_cr) 192) = inr w.
Proof.
  split; [lia|]. split; [reflexivity|].
  apply (create_icon_outcome hypot_cr 192 []); [lia | reflexivity].
Defined.

Lemma distinct_sizes_distinct_files_witness :
  In "public/icons/pen-192.png"%string
     (saved_files (performed (create_icon hypot_cr 192)))
  /\ 192%Z = 192%Z.
Proof.
  assert (H : In "public/icons/pen-192.png"%string
                 (saved_files (performed (create_icon hypot_cr 192)))).
  { vm_compute. left. reflexivity. }
  split; [exact H|].
  exact (distinct_sizes_distinct_files hypot_cr 192 192 _ H H).
Defined.

Lemma drawing_in_canvas_to_4096_witness :
  (1 <= 192 <= 4096)%Z
  /\ fst (create_icon hypot_cr 192 []) = inr tt
  /\ Forall (fun p => in_canvas 192 p = true)
       (drawn_points (performed (create_icon hypot_cr 192))).
Proof. split; [lia|]. apply (drawing_in_canvas_to_4096 192). lia. Defined.

Lemma stroke_width_to_4096_witness :
  hypot_positive hypot_cr /\ (1 <= 192 <= 4096)%Z
  /\ fst (create_icon hypot_cr 192 []) = inr tt
  /\ line_widths (performed (create_icon hypot_cr 192)) = [2%Z].
Proof.
  split; [exact hypot_cr_positive|]. split; [lia|].
  destruct (stroke_width_to_4096 hypot_cr 192 hypot_cr_positive) as (C & W & _);
    [lia|].
  split; [exact C | exact W].
Defined.
